(** * dc4mem0: the Data Cloud memory store of [src/main/dcmem.py]

    A shallow embedding of the class [DataCloudMemoryStore] and of the
    Python values it handles, followed by the properties of its nine
    contract operations.

    The two HTTP clients ([QueryServiceClient], [DataCloudIngestionClient]),
    the wall clock and the C library's [strftime] are outside the module:
    they are taken as parameters.  Every call that leaves the module is
    recorded, in order, in a trace of events. *)

From Stdlib Require Import ZArith String Ascii Bool Lia.
From Stdlib Require Import DecimalString SpecFloat.
From Stdlib Require Import List.
Import ListNotations.
Open Scope string_scope.
Open Scope list_scope.
Set Warnings "-register-all".

(** ** Python values *)

(** The values that travel through the adapter.  A [dict] is kept as an
    association list in insertion order, keyed by [str]. *)
Inductive pyval : Type :=
| PNone
| PBool (b : bool)
| PInt (z : Z)
| PFloat (f : spec_float)
| PStr (s : string)
| PList (l : list pyval)
| PTuple (l : list pyval)
| PDict (d : list (string * pyval)).

Definition dict := list (string * pyval).

(** A reference to an object: the object's identity (what [id()] returns)
    and its value.  The operator [is] compares identities only. *)
Record pyobj := mkObj { obj_id : nat; obj_val : pyval }.

Definition py_is (a b : pyobj) : bool := Nat.eqb (obj_id a) (obj_id b).
Definition py_is_not (a b : pyobj) : bool := negb (py_is a b).

(** [str(n)] for an [int], as an f-string renders it. *)
Definition str_of_int (z : Z) : string := NilZero.string_of_int (Z.to_int z).

(** ** Exceptions and results *)

Inductive exn : Type :=
| KeyError (key : string)
| TypeError
| CollaboratorError (what : string).

Inductive result (A : Type) : Type :=
| Ok (a : A)
| Raise (e : exn).
Arguments Ok {A} a.
Arguments Raise {A} e.

(** [d[k]] *)
Fixpoint getitem (d : dict) (k : string) : result pyval :=
  match d with
  | [] => Raise (KeyError k)
  | (k', v) :: d' => if String.eqb k' k then Ok v else getitem d' k
  end.

(** ** Rows of the read collaborator and [OutputData] *)

Module Row.
(** A row of the query service: it exposes [id], [score] and [payload]. *)
Record t := mk { id : option string; score : option spec_float; payload : pyobj }.
End Row.

Module OutputData.
(** [class OutputData(BaseModel)]: three optional fields.  The payload
    dictionary built by [search] holds the row's payload object itself. *)
Record t := mk {
  id : option string;
  score : option spec_float;
  payload : option (list (string * pyobj))
}.
End OutputData.

(** ** The outside world *)

Record datetime := mkDatetime {
  year : nat; month : nat; day : nat;
  hour : nat; minute : nat; second : nat; microsecond : nat
}.

(** What the adapter does that is visible outside it, in program order. *)
Inductive Event : Type :=
| LogWarning (msg : string)
| LogDebug (obj : pyval)
| IngestData (request_object : pyval) (connector_name : string) (dlo : pyval)
| ReadData (request_obj : pyval).

(** The two collaborators.  Each answers from the request and from what
    has happened so far; [ingest_data] returns nothing of use, so only a
    possible exception is kept. *)
Record DataCloudIngestionClient := {
  ingest_data : list Event -> pyval -> string -> pyval -> option exn
}.

Record QueryServiceClient := {
  read_data : list Event -> pyval -> result (list Row.t)
}.

Record Env := {
  (** the value of the k-th call of [datetime.now()] *)
  now : nat -> datetime;
  (** [d.strftime(format)] *)
  strftime : datetime -> string -> string;
  (** identity of the constant ['null'] of [search]'s code object *)
  null_const_id : nat;
  (** the constructors of the two clients; either may raise *)
  new_QueryServiceClient : result QueryServiceClient;
  new_DataCloudIngestionClient : result DataCloudIngestionClient
}.

(** ** The store object and the state threaded through a call *)

(** The attributes of a [DataCloudMemoryStore].  [dlo] is typed [pyval]
    because [__init__] does not store a [str] there. *)
Record DataCloudMemoryStore := mkStore {
  connector_name : string;
  dlo : pyval;
  vector_index_dlm : string;
  chunk_dlm : string;
  query_svc_client : QueryServiceClient;
  ingestion_client : DataCloudIngestionClient
}.

Record World := mkWorld { events : list Event; clock_reads : nat }.

Record State := mkState { self : DataCloudMemoryStore; world : World }.

(** A state and exception monad: a raised exception keeps the state
    reached so far. *)
Definition M (A : Type) : Type := State -> result A * State.

Definition ret {A} (a : A) : M A := fun st => (Ok a, st).

Definition raise {A} (e : exn) : M A := fun st => (Raise e, st).

Definition bind {A B} (m : M A) (k : A -> M B) : M B :=
  fun st =>
    match m st with
    | (Ok a, st') => k a st'
    | (Raise e, st') => (Raise e, st')
    end.

Declare Scope py_scope.
Delimit Scope py_scope with py.
Notation "x <- m ;; k" := (bind m (fun x => k))
  (at level 61, m at next level, right associativity) : py_scope.
Notation "m ;; k" := (bind m (fun _ => k))
  (at level 61, right associativity) : py_scope.
Open Scope py_scope.

Definition lift {A} (r : result A) : M A := fun st => (r, st).

Definition get_self : M DataCloudMemoryStore := fun st => (Ok (self st), st).

Definition emit (e : Event) : M unit :=
  fun st =>
    (Ok tt, mkState (self st)
                    (mkWorld (events (world st) ++ [e]) (clock_reads (world st)))).

(** [for x in xs: acc = body(acc, x)] *)
Fixpoint for_each {A B} (xs : list A) (acc : B) (body : B -> A -> M B) : M B :=
  match xs with
  | [] => ret acc
  | x :: xs' => acc' <- body acc x ;; for_each xs' acc' body
  end.

(** [[f(x) for x in xs]] *)
Fixpoint comprehension {A B} (f : A -> M B) (xs : list A) : M (list B) :=
  match xs with
  | [] => ret []
  | x :: xs' => y <- f x ;; ys <- comprehension f xs' ;; ret (y :: ys)
  end.

(** [zip(xs, ys)], stopping at the shorter argument. *)
Fixpoint zip {A B} (xs : list A) (ys : list B) : list (A * B) :=
  match xs, ys with
  | x :: xs', y :: ys' => (x, y) :: zip xs' ys'
  | _, _ => []
  end.

(** Truth value of an optional list: [None] and [[]] are false. *)
Definition truthy {A} (o : option (list A)) : bool :=
  match o with
  | Some (_ :: _) => true
  | _ => false
  end.

(** Iterating an optional argument: [iter(None)] raises [TypeError]. *)
Definition iter {A} (o : option (list A)) : M (list A) :=
  match o with
  | Some l => ret l
  | None => raise TypeError
  end.

(** ** class DataCloudMemoryStore *)

Section DataCloudMemoryStore.

Variable env : Env.

(** The n-th reading of the clock, formatted; the reading is counted. *)
Definition now_strftime (format : string) : M string :=
  fun st =>
    let k := clock_reads (world st) in
    (Ok (strftime env (now env k) format),
     mkState (self st) (mkWorld (events (world st)) (S k))).

(** [self.ingestion_client.ingest_data(request_object, connector, dlo)]:
    the call is recorded, then the client answers. *)
Definition call_ingest_data (request_object : pyval) (connector : string)
    (target : pyval) : M unit :=
  fun st =>
    let before := events (world st) in
    let st' := mkState (self st)
                 (mkWorld (before ++ [IngestData request_object connector target])
                          (clock_reads (world st))) in
    match ingest_data (ingestion_client (self st)) before request_object connector target with
    | None => (Ok tt, st')
    | Some e => (Raise e, st')
    end.

(** [self.query_svc_client.read_data(request_obj)] *)
Definition call_read_data (request_obj : pyval) : M (list Row.t) :=
  fun st =>
    let before := events (world st) in
    (read_data (query_svc_client (self st)) before request_obj,
     mkState (self st)
       (mkWorld (before ++ [ReadData request_obj]) (clock_reads (world st)))).

Definition default_arg {A} (d : A) (o : option A) : A :=
  match o with Some a => a | None => d end.

(** [_setup_datacloud]: builds the two clients, the query client first. *)
Definition _setup_datacloud : result (QueryServiceClient * DataCloudIngestionClient) :=
  match new_QueryServiceClient env with
  | Raise e => Raise e
  | Ok q =>
      match new_DataCloudIngestionClient env with
      | Raise e => Raise e
      | Ok i => Ok (q, i)
      end
  end.

(** [__init__]: an omitted argument ([None] here) takes its default.
    Line 45 reads [self.dlo = dlo,]: the trailing comma makes the stored
    value the one-element tuple [(dlo,)].  [collection_name] is not used. *)
Definition __init__ (connector_name_arg dlo_arg vector_index_dlm_arg chunk_dlm_arg
                     collection_name : option string) : result DataCloudMemoryStore :=
  let connector_name := default_arg "mem0" connector_name_arg in
  let dlo := default_arg "AgentMemory" dlo_arg in
  let vector_index_dlm := default_arg "AgentMemory_index_dlm" vector_index_dlm_arg in
  let chunk_dlm := default_arg "AgentMemory_chunk_dlm" chunk_dlm_arg in
  match _setup_datacloud with
  | Raise e => Raise e
  | Ok (q, i) =>
      Ok (mkStore connector_name (PTuple [PStr dlo]) vector_index_dlm chunk_dlm q i)
  end.

(** [create_col]: [pass]. *)
Definition create_col (name : string) (vector_size : Z) (distance : string) : M pyval :=
  ret PNone.

(** The dictionary literal of lines 77-81. *)
Definition memory_record (id_val text : pyval) (created : string) : pyval :=
  PDict [("id", id_val); ("memory", text); ("createdAt", PStr created)].

Definition created_at_format : string := "%Y-%m%-d %H:%M:%S".

(** One turn of the loop of lines 76-81. *)
Definition append_record (data : list pyval) (item : dict) : M (list pyval) :=
  id_val <- lift (getitem item "id") ;;
  text <- lift (getitem item "text") ;;
  created <- now_strftime created_at_format ;;
  ret (data ++ [memory_record id_val text created]).

(** The element expression of the comprehension of line 74. *)
Definition combine_item (pair : dict * string) : M dict :=
  let '(data_obj, id_val) := pair in
  text <- lift (getitem data_obj "data") ;;
  ret [("text", text); ("id", PStr id_val)].

(** [insert], lines 60-84. *)
Definition insert (vectors : list (list spec_float)) (payloads : option (list dict))
    (ids : option (list string)) : M (list string) :=
  if negb (truthy payloads) then
    emit (LogWarning "Empty payload, nothing will be inserted") ;;
    ret []
  else
    ps <- iter payloads ;;
    id_list <- iter ids ;;
    combines_items <- comprehension combine_item (zip ps id_list) ;;
    data <- for_each combines_items [] append_record ;;
    let request_object := PDict [("data", PList data)] in
    me <- get_self ;;
    call_ingest_data request_object (connector_name me) (dlo me) ;;
    ret id_list.

Definition nl : string := String (ascii_of_nat 10) EmptyString.

(** The f-string of lines 96-107, line by line. *)
Definition sql_text (vector_index_dlm query : string) (limit : Z) (chunk_dlm : string)
  : string :=
  (nl ++
  "        SELECT" ++ nl ++
  "            index.RecordId__c," ++ nl ++
  "            index.score__c," ++ nl ++
  "            chunk.Chunk__c" ++ nl ++
  "        FROM" ++ nl ++
  "            vector_search(TABLE(" ++ vector_index_dlm ++ "), '" ++ query
    ++ "', '', " ++ str_of_int limit ++ ") AS index" ++ nl ++
  "        JOIN" ++ nl ++
  "            " ++ chunk_dlm ++ " AS chunk" ++ nl ++
  "        ON" ++ nl ++
  "            index.RecordId__c = chunk.RecordId__c        " ++ nl ++
  "        ")%string.

(** The constant ['null'] that line 115 compares against. *)
Definition null_const : pyobj := mkObj (null_const_id env) (PStr "null").

(** One turn of the loop of lines 114-122. *)
Definition append_output (output : list OutputData.t) (item : Row.t)
  : M (list OutputData.t) :=
  if py_is_not (Row.payload item) null_const then
    ret (output ++ [OutputData.mk (Row.id item) (Row.score item)
                      (Some [("data", Row.payload item)])])
  else ret output.

(** [search], lines 86-123. *)
Definition search (query : string) (vectors : list (list spec_float)) (limit : Z)
    (filters : option dict) : M (list OutputData.t) :=
  me <- get_self ;;
  let sql := sql_text (vector_index_dlm me) query limit (chunk_dlm me) in
  let request_obj := PDict [("sql", PStr sql)] in
  emit (LogDebug request_obj) ;;
  response <- call_read_data request_obj ;;
  for_each response [] append_output.

(** [list_cols] *)
Definition list_cols : M (list pyval) :=
  me <- get_self ;;
  ret [dlo me].

(** The remaining methods are [pass]: they return [None]. *)
Definition delete (vector_id : string) : M pyval := ret PNone.
Definition delete_col : M pyval := ret PNone.
Definition col_info : M pyval := ret PNone.
Definition get (vector_id : string) : M pyval := ret PNone.
(** [list]; the name is taken by the list type. *)
Definition list_ (filters : option dict) (limit : option Z) : M pyval := ret PNone.
Definition reset : M pyval := ret PNone.
Definition update (vector_id : string) (vector : option (list dict))
    (payload : option dict) : M pyval := ret PNone.

(** *** Sequences of calls

    A caller may invoke the methods in any order and may catch what they
    raise; [step] runs one call and keeps the state it leaves. *)
Inductive Call : Type :=
| CreateCol (name : string) (vector_size : Z) (distance : string)
| Insert (vectors : list (list spec_float)) (payloads : option (list dict))
         (ids : option (list string))
| Search (query : string) (vectors : list (list spec_float)) (limit : Z)
         (filters : option dict)
| ListCols
| Delete (vector_id : string)
| DeleteCol
| ColInfo
| Get (vector_id : string)
| List_ (filters : option dict) (limit : option Z)
| CallReset
| Update (vector_id : string) (vector : option (list dict)) (payload : option dict).

Definition step (c : Call) (st : State) : State :=
  match c with
  | CreateCol n v d => snd (create_col n v d st)
  | Insert v p i => snd (insert v p i st)
  | Search q v l f => snd (search q v l f st)
  | ListCols => snd (list_cols st)
  | Delete i => snd (delete i st)
  | DeleteCol => snd (delete_col st)
  | ColInfo => snd (col_info st)
  | Get i => snd (get i st)
  | List_ f l => snd (list_ f l st)
  | CallReset => snd (reset st)
  | Update i v p => snd (update i v p st)
  end.

Definition run_calls (cs : list Call) (st : State) : State :=
  fold_left (fun s c => step c s) cs st.

End DataCloudMemoryStore.

(** ** Vocabulary of the properties *)

(** The four configuration attributes of a store. *)
Definition configuration (s : DataCloudMemoryStore)
  : string * pyval * string * string :=
  (connector_name s, dlo s, vector_index_dlm s, chunk_dlm s).

(** [needle in hay] for two strings. *)
Fixpoint contains (needle hay : string) : bool :=
  prefix needle hay ||
  match hay with
  | EmptyString => false
  | String _ rest => contains needle rest
  end.

(** A payload that stands for no match: [None], the text ['null'] or the
    empty text, whatever object holds it. *)
Definition no_match (o : pyobj) : bool :=
  match obj_val o with
  | PNone => true
  | PStr s => String.eqb s "null" || String.eqb s ""
  | _ => false
  end.

Definition non_empty_rows (rows : list Row.t) : list Row.t :=
  filter (fun r => negb (no_match (Row.payload r))) rows.

(** The result record that [search] builds from a row. *)
Definition output_of_row (r : Row.t) : OutputData.t :=
  OutputData.mk (Row.id r) (Row.score r) (Some [("data", Row.payload r)]).

(** Whether a payload dictionary has a ['data'] entry. *)
Definition has_data (p : dict) : Prop := exists text, getitem p "data" = Ok text.

(** The entry under ['data'] of a payload that has one. *)
Definition data_of (p : dict) : pyval :=
  match getitem p "data" with
  | Ok text => text
  | Raise _ => PNone
  end.

(** The batch that [insert] sends for a list of (payload, id) pairs when
    the clock has been read [k] times before. *)
Fixpoint batch_of (env : Env) (k : nat) (pairs : list (dict * string)) : list pyval :=
  match pairs with
  | [] => []
  | (p, id_val) :: rest =>
      memory_record (PStr id_val) (data_of p)
                    (strftime env (now env k) created_at_format)
      :: batch_of env (S k) rest
  end.

(** A computation that leaves the store object as it found it. *)
Definition preserves_self {A} (m : M A) : Prop :=
  forall st, self (snd (m st)) = self st.

(** ** A small world to run the methods in *)

Module Demo.

Definition accepting_client : DataCloudIngestionClient :=
  {| ingest_data := fun _ _ _ _ => None |}.

(** Three rows: a [None] payload, the text ['null'] as decoded from a
    response (an object of its own), and a real match. *)
Definition rows : list Row.t :=
  [ Row.mk (Some "r1") None (mkObj 0 PNone);
    Row.mk (Some "r2") None (mkObj 17 (PStr "null"));
    Row.mk (Some "r3") None (mkObj 18 (PStr "remembered text")) ].

Definition query_client : QueryServiceClient :=
  {| read_data := fun _ _ => Ok rows |}.

Definition env : Env :=
  {| now := fun k => mkDatetime 2024 5 6 7 8 k 0;
     strftime := fun d _ =>
       ("second " ++ NilZero.string_of_uint (Nat.to_uint (second d)))%string;
     null_const_id := 1;
     new_QueryServiceClient := Ok query_client;
     new_DataCloudIngestionClient := Ok accepting_client |}.

(** The store that [DataCloudMemoryStore()] builds, all defaults. *)
Definition store : DataCloudMemoryStore :=
  mkStore "mem0" (PTuple [PStr "AgentMemory"]) "AgentMemory_index_dlm"
          "AgentMemory_chunk_dlm" query_client accepting_client.

Definition start : State := mkState store (mkWorld [] 0).

Definition payloads : list dict := [ [("data", PStr "a")]; [("data", PStr "b")] ].
Definition ids : list string := ["1"; "2"].

End Demo.

(** ** Further vocabulary: outcomes and request counts *)

(** The test behind [data_obj['data']] not raising. *)
Definition has_data_b (p : dict) : bool :=
  match getitem p "data" with
  | Ok _ => true
  | Raise _ => false
  end.

Definition is_read (e : Event) : bool :=
  match e with ReadData _ => true | _ => false end.

Definition is_write (e : Event) : bool :=
  match e with IngestData _ _ _ => true | _ => false end.

(** How many read and write requests a trace holds. *)
Definition read_requests (evs : list Event) : nat := length (filter is_read evs).
Definition write_requests (evs : list Event) : nat := length (filter is_write evs).

Definition is_search_call (c : Call) : bool :=
  match c with Search _ _ _ _ => true | _ => false end.

Definition is_insert_call (c : Call) : bool :=
  match c with Insert _ _ _ => true | _ => false end.

Definition search_calls (cs : list Call) : nat := length (filter is_search_call cs).
Definition insert_calls (cs : list Call) : nat := length (filter is_insert_call cs).

(** The request that [search] builds in a given store. *)
Definition search_request (s : DataCloudMemoryStore) (query : string) (limit : Z) : pyval :=
  PDict [("sql", PStr (sql_text (vector_index_dlm s) query limit (chunk_dlm s)))].

(** The state [insert] leaves when it only logs its warning. *)
Definition warned (st : State) : State :=
  mkState (self st)
    (mkWorld (events (world st) ++ [LogWarning "Empty payload, nothing will be inserted"])
             (clock_reads (world st))).

(** The state [insert] leaves after sending the batch [data]. *)
Definition sent (st : State) (data : list pyval) : State :=
  mkState (self st)
    (mkWorld (events (world st)
              ++ [IngestData (PDict [("data", PList data)])
                             (connector_name (self st)) (dlo (self st))])
             (clock_reads (world st) + length data)).

(** What the write client answers to the batch [data] in state [st]. *)
Definition write_answer (st : State) (data : list pyval) : option exn :=
  ingest_data (ingestion_client (self st)) (events (world st))
              (PDict [("data", PList data)]) (connector_name (self st)) (dlo (self st)).

(** ** A world where the platform is down *)

Module Outage.

Definition query_client : QueryServiceClient :=
  {| read_data := fun _ _ => Raise (CollaboratorError "query service unavailable") |}.

Definition ingestion_client : DataCloudIngestionClient :=
  {| ingest_data := fun _ _ _ _ => Some (CollaboratorError "ingestion unavailable") |}.

Definition store : DataCloudMemoryStore :=
  mkStore "mem0" (PTuple [PStr "AgentMemory"]) "AgentMemory_index_dlm"
          "AgentMemory_chunk_dlm" query_client ingestion_client.

Definition start : State := mkState store (mkWorld [] 0).

(** Two payloads, the second without a ['data'] entry. *)
Definition payloads : list dict := [ [("data", PStr "a")]; [("text", PStr "b")] ].

End Outage.

(** * Properties *)

(** ** The monad *)

Lemma bind_ok {A B} (m : M A) (k : A -> M B) st a st' :
  m st = (Ok a, st') -> bind m k st = k a st'.
Proof. intros H; unfold bind; now rewrite H. Qed.

Lemma bind_raise {A B} (m : M A) (k : A -> M B) st e st' :
  m st = (Raise e, st') -> bind m k st = (Raise e, st').
Proof. intros H; unfold bind; now rewrite H. Qed.

(** ** No method assigns to [self] *)

Lemma preserves_ret {A} (a : A) : preserves_self (ret a).
Proof. now intros st. Qed.

Lemma preserves_raise {A} e : preserves_self (@raise A e).
Proof. now intros st. Qed.

Lemma preserves_lift {A} (r : result A) : preserves_self (lift r).
Proof. now intros st. Qed.

Lemma preserves_get_self : preserves_self get_self.
Proof. now intros st. Qed.

Lemma preserves_emit e : preserves_self (emit e).
Proof. now intros st. Qed.

Lemma preserves_iter {A} (o : option (list A)) : preserves_self (iter o).
Proof. destruct o; now intros st. Qed.

Lemma preserves_bind {A B} (m : M A) (k : A -> M B) :
  preserves_self m -> (forall a, preserves_self (k a)) -> preserves_self (bind m k).
Proof.
  intros Hm Hk st. unfold bind.
  specialize (Hm st).
  destruct (m st) as [[a | e] st']; simpl in *.
  - now rewrite Hk.
  - exact Hm.
Qed.

Lemma preserves_for_each {A B} (body : B -> A -> M B) :
  (forall acc x, preserves_self (body acc x)) ->
  forall xs acc, preserves_self (for_each xs acc body).
Proof.
  intros Hbody xs; induction xs as [| x xs IH]; intros acc; simpl.
  - apply preserves_ret.
  - apply preserves_bind; [apply Hbody | intros acc'; apply IH].
Qed.

Lemma preserves_comprehension {A B} (f : A -> M B) :
  (forall x, preserves_self (f x)) ->
  forall xs, preserves_self (comprehension f xs).
Proof.
  intros Hf xs; induction xs as [| x xs IH]; simpl.
  - apply preserves_ret.
  - apply preserves_bind; [apply Hf |].
    intros y. apply preserves_bind; [exact IH |].
    intros ys. apply preserves_ret.
Qed.

Section Facts.

Variable env : Env.

Lemma preserves_now_strftime fmt : preserves_self (now_strftime env fmt).
Proof. now intros st. Qed.

Lemma preserves_call_ingest_data r c t : preserves_self (call_ingest_data r c t).
Proof.
  intros st. unfold call_ingest_data.
  now destruct (ingest_data _ _ _ _ _).
Qed.

Lemma preserves_call_read_data r : preserves_self (call_read_data r).
Proof. now intros st. Qed.

Lemma preserves_append_record data item : preserves_self (append_record env data item).
Proof.
  unfold append_record.
  apply preserves_bind; [apply preserves_lift | intros id_val].
  apply preserves_bind; [apply preserves_lift | intros text].
  apply preserves_bind; [apply preserves_now_strftime | intros created].
  apply preserves_ret.
Qed.

Lemma preserves_append_output output item :
  preserves_self (append_output env output item).
Proof.
  unfold append_output.
  destruct (py_is_not _ _); apply preserves_ret.
Qed.

Lemma preserves_insert vectors payloads ids :
  preserves_self (insert env vectors payloads ids).
Proof.
  unfold insert.
  destruct (negb (truthy payloads)).
  - apply preserves_bind; [apply preserves_emit | intros _; apply preserves_ret].
  - apply preserves_bind; [apply preserves_iter | intros ps].
    apply preserves_bind; [apply preserves_iter | intros id_list].
    apply preserves_bind.
    { apply preserves_comprehension. intros [data_obj id_val]. unfold combine_item.
      apply preserves_bind; [apply preserves_lift | intros text; apply preserves_ret]. }
    intros combines_items.
    apply preserves_bind.
    { apply preserves_for_each. apply preserves_append_record. }
    intros data.
    apply preserves_bind; [apply preserves_get_self | intros me].
    apply preserves_bind; [apply preserves_call_ingest_data | intros _].
    apply preserves_ret.
Qed.

Lemma preserves_search query vectors limit filters :
  preserves_self (search env query vectors limit filters).
Proof.
  unfold search.
  apply preserves_bind; [apply preserves_get_self | intros me].
  apply preserves_bind; [apply preserves_emit | intros _].
  apply preserves_bind; [apply preserves_call_read_data | intros response].
  apply preserves_for_each. apply preserves_append_output.
Qed.

Lemma step_self c st : self (step env c st) = self st.
Proof.
  destruct c; simpl; try reflexivity.
  - apply preserves_insert.
  - apply preserves_search.
Qed.

Lemma run_calls_self cs : forall st, self (run_calls env cs st) = self st.
Proof.
  unfold run_calls.
  induction cs as [| c cs IH]; intros st; simpl.
  - reflexivity.
  - rewrite IH. apply step_self.
Qed.

End Facts.

(** ** Pairing with [zip] *)

Lemma zip_length {A B} (xs : list A) : forall ys : list B,
  length (zip xs ys) = Nat.min (length xs) (length ys).
Proof.
  induction xs as [| x xs IH]; intros [| y ys]; simpl; auto.
Qed.

Lemma zip_nth_error {A B} (xs : list A) : forall (ys : list B) i x y,
  nth_error xs i = Some x -> nth_error ys i = Some y ->
  nth_error (zip xs ys) i = Some (x, y).
Proof.
  induction xs as [| x0 xs IH]; intros [| y0 ys] [| i] x y Hx Hy;
    simpl in *; try discriminate.
  - congruence.
  - now apply IH.
Qed.

Lemma zip_has_data (ps : list dict) : forall ids : list string,
  Forall has_data (firstn (length ids) ps) ->
  Forall (fun pr => has_data (fst pr)) (zip ps ids).
Proof.
  induction ps as [| p ps IH]; intros [| i ids] H; simpl in *; constructor.
  - now inversion H.
  - apply IH. now inversion H.
Qed.

Lemma data_of_has_data p : has_data p -> getitem p "data" = Ok (data_of p).
Proof. intros [text H]. unfold data_of. now rewrite H. Qed.

Section InsertFacts.

Variable env : Env.

Lemma combine_item_run p i st :
  has_data p ->
  combine_item (p, i) st = (Ok [("text", data_of p); ("id", PStr i)], st).
Proof.
  intros Hp. unfold combine_item.
  now rewrite (bind_ok _ _ st (data_of p) st) by (unfold lift; now rewrite data_of_has_data).
Qed.

(** The comprehension of line 74 on payloads that all have ['data']. *)
Lemma comprehension_items (pairs : list (dict * string)) : forall st,
  Forall (fun pr => has_data (fst pr)) pairs ->
  comprehension combine_item pairs st
  = (Ok (map (fun pr => [("text", data_of (fst pr)); ("id", PStr (snd pr))]) pairs), st).
Proof.
  induction pairs as [| [p i] pairs IH]; intros st H; simpl.
  - reflexivity.
  - inversion H as [| ? ? Hp Hrest]; subst. simpl in Hp.
    rewrite (bind_ok _ _ _ _ _ (combine_item_run p i st Hp)).
    now rewrite (bind_ok _ _ _ _ _ (IH st Hrest)).
Qed.

(** The loop of lines 76-81: one record and one clock reading per item. *)
Lemma for_each_records (pairs : list (dict * string)) : forall acc st,
  for_each (map (fun pr => [("text", data_of (fst pr)); ("id", PStr (snd pr))]) pairs)
           acc (append_record env) st
  = (Ok (acc ++ batch_of env (clock_reads (world st)) pairs),
     mkState (self st)
       (mkWorld (events (world st)) (clock_reads (world st) + length pairs))).
Proof.
  induction pairs as [| [p i] pairs IH]; intros acc st; simpl.
  - rewrite app_nil_r, Nat.add_0_r. now destruct st as [s [ev k]].
  - unfold bind at 1. unfold append_record, bind, lift, now_strftime, ret. simpl.
    fold (@bind (list pyval) (list pyval)).
    rewrite IH. simpl. rewrite <- app_assoc. simpl.
    now rewrite Nat.add_succ_r.
Qed.

Lemma batch_of_length (pairs : list (dict * string)) : forall k,
  length (batch_of env k pairs) = length pairs.
Proof.
  induction pairs as [| [p i] pairs IH]; intros k; simpl; auto.
Qed.

Lemma batch_of_nth_error (pairs : list (dict * string)) : forall k i p id_val,
  nth_error pairs i = Some (p, id_val) ->
  nth_error (batch_of env k pairs) i
  = Some (memory_record (PStr id_val) (data_of p)
            (strftime env (now env (k + i)) created_at_format)).
Proof.
  induction pairs as [| [p0 i0] pairs IH]; intros k [| i] p id_val H;
    simpl in *; try discriminate.
  - inversion H; subst. now rewrite Nat.add_0_r.
  - rewrite (IH (S k) i p id_val H). now rewrite Nat.add_succ_r.
Qed.

(** What [insert] does on a non-empty payload list and a list of ids,
    when every payload that gets paired has a ['data'] entry. *)
Lemma insert_run vectors (payloads : list dict) (ids : list string) st :
  payloads <> [] ->
  Forall (fun pr => has_data (fst pr)) (zip payloads ids) ->
  let request_object :=
    PDict [("data", PList (batch_of env (clock_reads (world st)) (zip payloads ids)))] in
  insert env vectors (Some payloads) (Some ids) st
  = (match ingest_data (ingestion_client (self st)) (events (world st))
             request_object (connector_name (self st)) (dlo (self st)) with
     | None => Ok ids
     | Some e => Raise e
     end,
     mkState (self st)
       (mkWorld (events (world st)
                 ++ [IngestData request_object (connector_name (self st)) (dlo (self st))])
                (clock_reads (world st) + length (zip payloads ids)))).
Proof.
  intros Hne Hdata. destruct payloads as [| p ps]; [congruence |].
  unfold insert. cbn [truthy negb iter].
  unfold bind at 1. unfold ret at 1.
  unfold bind at 1. unfold ret at 1.
  unfold bind at 1. rewrite (comprehension_items _ st Hdata).
  unfold bind at 1. rewrite for_each_records. simpl.
  unfold bind, get_self, call_ingest_data, ret. simpl.
  now destruct (ingest_data _ _ _ _ _).
Qed.

End InsertFacts.

(** ** Substrings *)

Lemma prefix_append (needle post : string) : prefix needle (needle ++ post)%string = true.
Proof.
  induction needle as [| c needle IH]; simpl.
  - now destruct post.
  - destruct (ascii_dec c c) as [_ | Hc]; [exact IH | congruence].
Qed.

Lemma contains_here (needle post : string) : contains needle (needle ++ post)%string = true.
Proof.
  generalize (prefix_append needle post).
  destruct (needle ++ post)%string; intros H; cbn [contains]; rewrite H; reflexivity.
Qed.

Lemma contains_skip (needle pre hay : string) :
  contains needle hay = true -> contains needle (pre ++ hay)%string = true.
Proof.
  intros H. induction pre as [| c pre IH]; cbn [append contains].
  - exact H.
  - rewrite IH. apply orb_true_r.
Qed.

Lemma append_assoc (a b c : string) : ((a ++ b) ++ c = a ++ (b ++ c))%string.
Proof. induction a as [| x a IH]; simpl; [reflexivity | now rewrite IH]. Qed.

Section SearchFacts.

Variable env : Env.

(** The loop of lines 114-122 keeps every row whose payload is not the
    very object of the constant, and touches nothing else. *)
Lemma for_each_output (rows : list Row.t) : forall acc st,
  for_each rows acc (append_output env) st
  = (Ok (acc ++ map output_of_row
                  (filter (fun r => py_is_not (Row.payload r) (null_const env)) rows)),
     st).
Proof.
  induction rows as [| r rows IH]; intros acc st; simpl.
  - now rewrite app_nil_r.
  - unfold bind, append_output.
    destruct (py_is_not (Row.payload r) (null_const env)); unfold ret; simpl.
    + rewrite IH, <- app_assoc. reflexivity.
    + apply IH.
Qed.

Lemma search_run query vectors limit filters st :
  let request_obj :=
    PDict [("sql", PStr (sql_text (vector_index_dlm (self st)) query limit
                                  (chunk_dlm (self st))))] in
  search env query vectors limit filters st
  = (match read_data (query_svc_client (self st))
             (events (world st) ++ [LogDebug request_obj]) request_obj with
     | Ok rows =>
         Ok (map output_of_row
               (filter (fun r => py_is_not (Row.payload r) (null_const env)) rows))
     | Raise e => Raise e
     end,
     mkState (self st)
       (mkWorld (events (world st) ++ [LogDebug request_obj; ReadData request_obj])
                (clock_reads (world st)))).
Proof.
  unfold search, bind, get_self, emit, call_read_data. simpl.
  rewrite <- app_assoc. simpl.
  destruct (read_data _ _ _) as [rows | e]; [| reflexivity].
  now rewrite for_each_output.
Qed.

End SearchFacts.

(** * The claims *)

(** C1.  On a non-empty list of payloads that each carry ['data'] and a
    list of ids of the same length, [insert] adds exactly one event to the
    trace: a write request to the store's connector and target object.
    Its batch has one record per payload; record [i] holds [ids[i]],
    [payloads[i]['data']] and the formatted reading of the clock taken for
    it.  The call returns [ids] itself unless the write client raises, in
    which case that exception is what leaves [insert]. *)
Theorem insert_pairs_payloads_with_ids env vectors payloads ids st :
  payloads <> [] ->
  length ids = length payloads ->
  Forall has_data payloads ->
  exists data,
    let request_object := PDict [("data", PList data)] in
    let run := insert env vectors (Some payloads) (Some ids) st in
    events (world (snd run))
      = events (world st)
        ++ [IngestData request_object (connector_name (self st)) (dlo (self st))]
    /\ length data = length payloads
    /\ (forall i p id_val,
          nth_error payloads i = Some p -> nth_error ids i = Some id_val ->
          exists text,
            getitem p "data" = Ok text /\
            nth_error data i
            = Some (memory_record (PStr id_val) text
                      (strftime env (now env (clock_reads (world st) + i))
                                created_at_format)))
    /\ fst run
       = match ingest_data (ingestion_client (self st)) (events (world st))
                 request_object (connector_name (self st)) (dlo (self st)) with
         | None => Ok ids
         | Some e => Raise e
         end.
Proof.
  intros Hne Hlen Hdata.
  assert (Hzip : Forall (fun pr => has_data (fst pr)) (zip payloads ids)).
  { apply zip_has_data. now rewrite Hlen, firstn_all. }
  exists (batch_of env (clock_reads (world st)) (zip payloads ids)).
  cbv zeta. rewrite (insert_run env vectors payloads ids st Hne Hzip). cbn [fst snd world events].
  repeat split.
  - rewrite batch_of_length, zip_length, Hlen. apply Nat.min_id.
  - intros i p id_val Hp Hi.
    assert (Hin : has_data p).
    { rewrite Forall_forall in Hdata. apply Hdata. eapply nth_error_In; eauto. }
    exists (data_of p). split; [now apply data_of_has_data |].
    apply batch_of_nth_error. now apply zip_nth_error.
Qed.

Lemma insert_pairs_payloads_with_ids_witness :
  (Demo.payloads <> [] /\ length Demo.ids = length Demo.payloads
   /\ Forall has_data Demo.payloads)
  /\ exists data,
       events (world (snd (insert Demo.env [] (Some Demo.payloads) (Some Demo.ids) Demo.start)))
       = [IngestData (PDict [("data", PList data)]) "mem0" (PTuple [PStr "AgentMemory"])]
       /\ length data = 2
       /\ fst (insert Demo.env [] (Some Demo.payloads) (Some Demo.ids) Demo.start)
          = Ok ["1"; "2"].
Proof.
  assert (H1 : Demo.payloads <> []) by discriminate.
  assert (H2 : length Demo.ids = length Demo.payloads) by reflexivity.
  assert (H3 : Forall has_data Demo.payloads).
  { repeat constructor; eexists; reflexivity. }
  split; [now repeat split |].
  destruct (insert_pairs_payloads_with_ids Demo.env [] Demo.payloads Demo.ids
              Demo.start H1 H2 H3) as (data & Hev & Hlen & _ & Hret).
  exists data. repeat split; assumption.
Defined.

(** C2.  The claim is that [search] drops the rows whose payload stands
    for no match.  On the three rows of [Demo.rows] (a [None] payload,
    the text ['null'] held by an object of its own, and a real match) the
    test [item.payload is not 'null'] of line 115 lets all three through:
    the call returns three records although only one row is non-empty. *)
Theorem search_keeps_rows_without_match :
  fst (search Demo.env "hello" [] 3 None Demo.start)
  = Ok (map output_of_row Demo.rows)
  /\ length (map output_of_row Demo.rows) = 3
  /\ length (non_empty_rows Demo.rows) = 1.
Proof. repeat split; reflexivity. Qed.

(** C3.  The claim is that [list_cols] returns the configured object name
    in a one-element list.  After [__init__], and after any calls, it
    returns a one-element list whose element is the tuple [(name,)] that
    line 45 stored, which is not the string [name]. *)
Theorem list_cols_returns_a_tuple env connector dlo_arg index chunk collection s w cs :
  __init__ env connector dlo_arg index chunk collection = Ok s ->
  let name := default_arg "AgentMemory" dlo_arg in
  fst (list_cols (run_calls env cs (mkState s w))) = Ok [PTuple [PStr name]]
  /\ fst (list_cols (run_calls env cs (mkState s w))) <> Ok [PStr name].
Proof.
  intros Hinit name.
  assert (Hdlo : dlo s = PTuple [PStr name]).
  { unfold __init__ in Hinit.
    destruct (_setup_datacloud env) as [[q i] | e]; [| discriminate].
    now inversion Hinit. }
  assert (Hret : fst (list_cols (run_calls env cs (mkState s w)))
                 = Ok [PTuple [PStr name]]).
  { unfold list_cols, bind, get_self, ret. simpl.
    now rewrite run_calls_self, <- Hdlo. }
  split; [exact Hret |].
  rewrite Hret. discriminate.
Qed.

Lemma list_cols_returns_a_tuple_witness :
  __init__ Demo.env None None None None None = Ok Demo.store
  /\ fst (list_cols (run_calls Demo.env
                       [Insert [] (Some Demo.payloads) (Some Demo.ids);
                        Search "hello" [] 3 None]
                       Demo.start))
     = Ok [PTuple [PStr "AgentMemory"]].
Proof.
  assert (H : __init__ Demo.env None None None None None = Ok Demo.store)
    by reflexivity.
  split; [exact H |].
  exact (proj1 (list_cols_returns_a_tuple Demo.env None None None None None
                  Demo.store (mkWorld [] 0)
                  [Insert [] (Some Demo.payloads) (Some Demo.ids);
                   Search "hello" [] 3 None] H)).
Defined.

(** C4.  [search] adds to the trace the debug log of its request and then
    exactly one read request.  The query text of that request contains the
    query string as given, also between the quotes the template puts
    around it, the store's index and chunk structure names, and the limit
    in decimal. *)
Theorem search_issues_one_read env query vectors limit filters st :
  let sql := sql_text (vector_index_dlm (self st)) query limit (chunk_dlm (self st)) in
  let request_obj := PDict [("sql", PStr sql)] in
  events (world (snd (search env query vectors limit filters st)))
  = events (world st) ++ [LogDebug request_obj; ReadData request_obj]
  /\ contains query sql = true
  /\ contains ("'" ++ query ++ "'")%string sql = true
  /\ contains (vector_index_dlm (self st)) sql = true
  /\ contains (chunk_dlm (self st)) sql = true
  /\ contains (str_of_int limit) sql = true.
Proof.
  intros sql request_obj.
  split.
  { subst sql request_obj. now rewrite search_run. }
  subst sql. unfold sql_text.
  repeat split.
  - repeat (apply contains_here || apply contains_skip).
  - do 13 apply contains_skip.
    change ("), '" ++ query ++ "', '', " ++ str_of_int limit ++ ") AS index" ++ nl ++
            "        JOIN" ++ nl ++
            "            " ++ chunk_dlm (self st) ++ " AS chunk" ++ nl ++
            "        ON" ++ nl ++
            "            index.RecordId__c = chunk.RecordId__c        " ++ nl ++
            "        ")%string
      with ("), " ++ "'" ++ query ++ "'" ++ ", '', " ++ str_of_int limit ++ ") AS index" ++ nl ++
            "        JOIN" ++ nl ++
            "            " ++ chunk_dlm (self st) ++ " AS chunk" ++ nl ++
            "        ON" ++ nl ++
            "            index.RecordId__c = chunk.RecordId__c        " ++ nl ++
            "        ")%string.
    apply contains_skip.
    rewrite <- (append_assoc query "'"), <- (append_assoc "'" (query ++ "'")).
    apply contains_here.
  - repeat (apply contains_here || apply contains_skip).
  - repeat (apply contains_here || apply contains_skip).
  - repeat (apply contains_here || apply contains_skip).
Qed.

(** C5.  With [payloads] absent ([None]) or empty, whatever [vectors] and
    [ids] are, [insert] returns the empty list; the only thing it adds to
    the trace is the warning, so no write request is issued. *)
Theorem insert_empty_payloads env vectors ids st :
  let warned :=
    mkState (self st)
      (mkWorld (events (world st) ++ [LogWarning "Empty payload, nothing will be inserted"])
               (clock_reads (world st))) in
  insert env vectors None ids st = (Ok [], warned)
  /\ insert env vectors (Some []) ids st = (Ok [], warned).
Proof. split; reflexivity. Qed.

(** C6.  With a non-empty [payloads] and a shorter [ids], where the
    payloads that get an id carry ['data'], [insert] raises nothing of its
    own: it sends one write request whose batch has exactly [len(ids)]
    records, record [i] pairing [ids[i]] with [payloads[i]['data']], and
    returns [ids] (or passes on what the write client raises). *)
Theorem insert_truncates_to_ids env vectors payloads ids st :
  payloads <> [] ->
  length ids < length payloads ->
  Forall has_data (firstn (length ids) payloads) ->
  exists data,
    let request_object := PDict [("data", PList data)] in
    let run := insert env vectors (Some payloads) (Some ids) st in
    events (world (snd run))
      = events (world st)
        ++ [IngestData request_object (connector_name (self st)) (dlo (self st))]
    /\ length data = length ids
    /\ (forall i p id_val,
          nth_error payloads i = Some p -> nth_error ids i = Some id_val ->
          exists text,
            getitem p "data" = Ok text /\
            nth_error data i
            = Some (memory_record (PStr id_val) text
                      (strftime env (now env (clock_reads (world st) + i))
                                created_at_format)))
    /\ fst run
       = match ingest_data (ingestion_client (self st)) (events (world st))
                 request_object (connector_name (self st)) (dlo (self st)) with
         | None => Ok ids
         | Some e => Raise e
         end.
Proof.
  intros Hne Hlen Hdata.
  assert (Hzip : Forall (fun pr => has_data (fst pr)) (zip payloads ids))
    by now apply zip_has_data.
  exists (batch_of env (clock_reads (world st)) (zip payloads ids)).
  cbv zeta. rewrite (insert_run env vectors payloads ids st Hne Hzip).
  cbn [fst snd world events].
  repeat split.
  - rewrite batch_of_length, zip_length. lia.
  - intros i p id_val Hp Hi.
    assert (Hpair : nth_error (zip payloads ids) i = Some (p, id_val))
      by now apply zip_nth_error.
    assert (Hin : has_data p).
    { rewrite Forall_forall in Hzip.
      apply (Hzip (p, id_val)). eapply nth_error_In; eauto. }
    exists (data_of p). split; [now apply data_of_has_data |].
    now apply batch_of_nth_error.
Qed.

Lemma insert_truncates_to_ids_witness :
  (Demo.payloads <> [] /\ length ["1"] < length Demo.payloads
   /\ Forall has_data (firstn (length ["1"]) Demo.payloads))
  /\ exists data,
       events (world (snd (insert Demo.env [] (Some Demo.payloads) (Some ["1"]) Demo.start)))
       = [IngestData (PDict [("data", PList data)]) "mem0" (PTuple [PStr "AgentMemory"])]
       /\ length data = 1
       /\ fst (insert Demo.env [] (Some Demo.payloads) (Some ["1"]) Demo.start)
          = Ok ["1"].
Proof.
  assert (H1 : Demo.payloads <> []) by discriminate.
  assert (H2 : length ["1"] < length Demo.payloads) by (simpl; lia).
  assert (H3 : Forall has_data (firstn (length ["1"]) Demo.payloads)).
  { repeat constructor; eexists; reflexivity. }
  split; [now repeat split |].
  destruct (insert_truncates_to_ids Demo.env [] Demo.payloads ["1"]
              Demo.start H1 H2 H3) as (data & Hev & Hlen & _ & Hret).
  exists data. repeat split; assumption.
Defined.

(** C7.  [create_col], [delete], [delete_col], [col_info], [get], [list],
    [reset] and [update] return [None] for every argument and leave the
    whole state, trace included, exactly as it was: no request, no
    exception, no change. *)
Theorem no_op_methods (st : State) :
  (forall name vector_size distance,
     create_col name vector_size distance st = (Ok PNone, st))
  /\ (forall vector_id, delete vector_id st = (Ok PNone, st))
  /\ delete_col st = (Ok PNone, st)
  /\ col_info st = (Ok PNone, st)
  /\ (forall vector_id, get vector_id st = (Ok PNone, st))
  /\ (forall filters limit, list_ filters limit st = (Ok PNone, st))
  /\ reset st = (Ok PNone, st)
  /\ (forall vector_id vector payload,
        update vector_id vector payload st = (Ok PNone, st)).
Proof. repeat split; reflexivity. Qed.

(** C8.  Two calls of [insert] that differ only in [vectors], and two
    calls of [search] that differ only in [filters], started in the same
    state, return the same value and leave the same state, hence the same
    trace of requests. *)
Theorem vectors_and_filters_are_ignored env vectors1 vectors2 payloads ids
    query vectors limit filters1 filters2 st :
  insert env vectors1 payloads ids st = insert env vectors2 payloads ids st
  /\ search env query vectors limit filters1 st
     = search env query vectors limit filters2 st.
Proof. split; reflexivity. Qed.

(** C9.  [__init__] stores the connector name and the two structure names
    as given (or their defaults) and the object name inside a one-element
    tuple; no sequence of calls of the contract operations changes any of
    the four. *)
Theorem configuration_is_invariant env :
  (forall connector dlo_arg index chunk collection,
     match __init__ env connector dlo_arg index chunk collection with
     | Ok s =>
         configuration s
         = (default_arg "mem0" connector,
            PTuple [PStr (default_arg "AgentMemory" dlo_arg)],
            default_arg "AgentMemory_index_dlm" index,
            default_arg "AgentMemory_chunk_dlm" chunk)
     | Raise _ => True
     end)
  /\ (forall cs st,
        configuration (self (run_calls env cs st)) = configuration (self st)).
Proof.
  split.
  - intros connector dlo_arg index chunk collection. unfold __init__.
    destruct (_setup_datacloud env) as [[q i] | e]; [reflexivity | exact I].
  - intros cs st. now rewrite run_calls_self.
Qed.

(** C10.  With a non-empty [payloads] and [ids] absent ([None]), [insert]
    raises [TypeError] when it tries to pair them, before anything is
    logged or sent: the state is unchanged. *)
Theorem insert_without_ids_raises env vectors p ps st :
  insert env vectors (Some (p :: ps)) None st = (Raise TypeError, st).
Proof. reflexivity. Qed.

(** * Further properties *)

(** ** Every outcome of [insert] *)

Lemma has_data_b_true p : has_data_b p = true <-> has_data p.
Proof.
  unfold has_data_b, has_data. destruct (getitem p "data") as [text | e].
  - split; [intros _; now exists text | reflexivity].
  - split; [discriminate | intros [text H]; discriminate].
Qed.

Lemma getitem_raises (d : dict) k e : getitem d k = Raise e -> e = KeyError k.
Proof.
  induction d as [| [k' v] d IH]; simpl.
  - congruence.
  - destruct (String.eqb k' k); [discriminate | exact IH].
Qed.

Lemma has_data_b_false p : has_data_b p = false -> getitem p "data" = Raise (KeyError "data").
Proof.
  unfold has_data_b. destruct (getitem p "data") as [text | e] eqn:E; [discriminate |].
  intros _. now rewrite (getitem_raises _ _ _ E).
Qed.

Lemma forallb_has_data (pairs : list (dict * string)) :
  forallb (fun pr => has_data_b (fst pr)) pairs = true ->
  Forall (fun pr => has_data (fst pr)) pairs.
Proof.
  rewrite forallb_forall, Forall_forall.
  intros H pr Hin. apply has_data_b_true. now apply H.
Qed.

Lemma combine_item_missing p i st :
  has_data_b p = false -> combine_item (p, i) st = (Raise (KeyError "data"), st).
Proof.
  intros H. unfold combine_item.
  apply bind_raise. unfold lift. now rewrite (has_data_b_false _ H).
Qed.

(** The comprehension of line 74 on any list of pairs: it stops at the
    first payload without ['data'] and has changed nothing by then. *)
Lemma comprehension_total (pairs : list (dict * string)) : forall st,
  comprehension combine_item pairs st
  = (if forallb (fun pr => has_data_b (fst pr)) pairs
     then Ok (map (fun pr => [("text", data_of (fst pr)); ("id", PStr (snd pr))]) pairs)
     else Raise (KeyError "data"),
     st).
Proof.
  induction pairs as [| [p i] pairs IH]; intros st; simpl.
  - reflexivity.
  - destruct (has_data_b p) eqn:Hp; simpl.
    + apply has_data_b_true in Hp.
      rewrite (bind_ok _ _ _ _ _ (combine_item_run p i st Hp)).
      unfold bind. rewrite IH.
      now destruct (forallb _ pairs).
    + apply bind_raise. now apply combine_item_missing.
Qed.

Section InsertOutcomes.

Variable env : Env.

Lemma insert_total vectors p ps ids st :
  insert env vectors (Some (p :: ps)) (Some ids) st
  = if forallb (fun pr => has_data_b (fst pr)) (zip (p :: ps) ids)
    then
      let data := batch_of env (clock_reads (world st)) (zip (p :: ps) ids) in
      (match write_answer st data with
       | None => Ok ids
       | Some e => Raise e
       end, sent st data)
    else (Raise (KeyError "data"), st).
Proof.
  destruct (forallb _ (zip (p :: ps) ids)) eqn:Hall.
  - rewrite insert_run by (try discriminate; now apply forallb_has_data).
    cbv zeta. unfold write_answer, sent. now rewrite batch_of_length.
  - unfold insert. cbn [truthy negb iter].
    unfold bind at 1. unfold ret at 1.
    unfold bind at 1. unfold ret at 1.
    apply bind_raise. now rewrite comprehension_total, Hall.
Qed.

(** The four ways a call of [insert] can end. *)
Lemma insert_cases vectors payloads ids st :
  let run := insert env vectors payloads ids st in
  (truthy payloads = false /\ run = (Ok [], warned st))
  \/ (truthy payloads = true /\ ids = None /\ run = (Raise TypeError, st))
  \/ (exists ps id_list,
        payloads = Some ps /\ ids = Some id_list
        /\ forallb (fun pr => has_data_b (fst pr)) (zip ps id_list) = false
        /\ run = (Raise (KeyError "data"), st))
  \/ (exists ps id_list data,
        payloads = Some ps /\ ids = Some id_list
        /\ length data = Nat.min (length ps) (length id_list)
        /\ run = (match write_answer st data with
                  | None => Ok id_list
                  | Some e => Raise e
                  end, sent st data)).
Proof.
  cbv zeta.
  destruct payloads as [[| p ps] |]; try (left; split; reflexivity).
  destruct ids as [id_list |]; [| right; left; repeat split; reflexivity].
  right; right. rewrite insert_total.
  destruct (forallb _ (zip (p :: ps) id_list)) eqn:Hall.
  - right. exists (p :: ps), id_list,
      (batch_of env (clock_reads (world st)) (zip (p :: ps) id_list)).
    repeat split. now rewrite batch_of_length, zip_length.
  - left. exists (p :: ps), id_list. repeat split. exact Hall.
Qed.

End InsertOutcomes.

(** ** Counting the requests in a trace *)

Lemma read_requests_app a b :
  read_requests (a ++ b) = read_requests a + read_requests b.
Proof. unfold read_requests. now rewrite filter_app, length_app. Qed.

Lemma write_requests_app a b :
  write_requests (a ++ b) = write_requests a + write_requests b.
Proof. unfold write_requests. now rewrite filter_app, length_app. Qed.

Section RequestCounts.

Variable env : Env.

Lemma insert_requests vectors payloads ids st :
  let evs := events (world (snd (insert env vectors payloads ids st))) in
  read_requests evs = read_requests (events (world st))
  /\ write_requests (events (world st)) <= write_requests evs
  /\ write_requests evs <= write_requests (events (world st)) + 1.
Proof.
  cbv zeta.
  destruct (insert_cases env vectors payloads ids st)
    as [[_ H] | [(_ & _ & H) | [(ps & il & _ & _ & _ & H) | (ps & il & data & _ & _ & _ & H)]]];
    rewrite H; cbn [snd warned sent world events];
    rewrite ?read_requests_app, ?write_requests_app; cbn; lia.
Qed.

Lemma search_requests query vectors limit filters st :
  let evs := events (world (snd (search env query vectors limit filters st))) in
  read_requests evs = read_requests (events (world st)) + 1
  /\ write_requests evs = write_requests (events (world st)).
Proof.
  cbv zeta. rewrite search_run. cbn [snd world events].
  rewrite read_requests_app, write_requests_app. cbn. lia.
Qed.

Lemma step_requests c st :
  let evs := events (world (step env c st)) in
  read_requests evs
  = read_requests (events (world st)) + (if is_search_call c then 1 else 0)
  /\ write_requests (events (world st)) <= write_requests evs
  /\ write_requests evs
     <= write_requests (events (world st)) + (if is_insert_call c then 1 else 0).
Proof.
  cbv zeta. destruct c; cbn [step is_search_call is_insert_call];
    try (cbn; lia).
  - pose proof (insert_requests vectors payloads ids st) as H. cbv zeta in H. lia.
  - pose proof (search_requests query vectors limit filters st) as H. cbv zeta in H. lia.
Qed.

Lemma run_calls_requests cs : forall st,
  let evs := events (world (run_calls env cs st)) in
  read_requests evs = read_requests (events (world st)) + search_calls cs
  /\ write_requests (events (world st)) <= write_requests evs
  /\ write_requests evs <= write_requests (events (world st)) + insert_calls cs.
Proof.
  unfold run_calls, search_calls, insert_calls.
  induction cs as [| c cs IH]; intros st; cbn [fold_left filter].
  - cbn. lia.
  - specialize (IH (step env c st)). cbv zeta in IH.
    pose proof (step_requests c st) as Hs. cbv zeta in Hs.
    destruct (is_search_call c), (is_insert_call c); cbn [length]; lia.
Qed.

End RequestCounts.

(** * Properties beyond the claims *)

(** X1.  If a payload that gets an id has no ['data'] entry, [insert]
    raises [KeyError('data')] while it is still building its items: no
    request is sent, nothing is logged and the clock is not read, whatever
    the other payloads hold. *)
Theorem insert_missing_data_raises_key_error env vectors payloads ids st i p id_val :
  nth_error payloads i = Some p ->
  nth_error ids i = Some id_val ->
  getitem p "data" = Raise (KeyError "data") ->
  insert env vectors (Some payloads) (Some ids) st = (Raise (KeyError "data"), st).
Proof.
  intros Hp Hi Hmiss.
  destruct payloads as [| p0 ps]; [now destruct i |].
  rewrite insert_total.
  destruct (forallb _ (zip (p0 :: ps) ids)) eqn:Hall; [| reflexivity].
  rewrite forallb_forall in Hall.
  assert (Hin : In (p, id_val) (zip (p0 :: ps) ids)).
  { eapply nth_error_In. apply zip_nth_error; eauto. }
  specialize (Hall _ Hin). cbn [fst] in Hall.
  unfold has_data_b in Hall. rewrite Hmiss in Hall. discriminate.
Qed.

Lemma insert_missing_data_raises_key_error_witness :
  (nth_error Outage.payloads 1 = Some [("text", PStr "b")]
   /\ nth_error Demo.ids 1 = Some "2"
   /\ getitem [("text", PStr "b")] "data" = Raise (KeyError "data"))
  /\ insert Demo.env [] (Some Outage.payloads) (Some Demo.ids) Demo.start
     = (Raise (KeyError "data"), Demo.start).
Proof.
  assert (H1 : nth_error Outage.payloads 1 = Some [("text", PStr "b")]) by reflexivity.
  assert (H2 : nth_error Demo.ids 1 = Some "2") by reflexivity.
  assert (H3 : getitem [("text", PStr "b")] "data" = Raise (KeyError "data"))
    by reflexivity.
  split; [now repeat split |].
  exact (insert_missing_data_raises_key_error Demo.env [] Outage.payloads Demo.ids
           Demo.start 1 [("text", PStr "b")] "2" H1 H2 H3).
Defined.

(** X2.  With more ids than payloads, [insert] writes one record per
    payload only, yet returns the whole [ids] list: the ids beyond
    [len(payloads)] are reported although no record was sent for them. *)
Theorem insert_returns_surplus_ids env vectors payloads ids st :
  payloads <> [] ->
  length payloads < length ids ->
  Forall has_data payloads ->
  exists data,
    insert env vectors (Some payloads) (Some ids) st
    = (match write_answer st data with
       | None => Ok ids
       | Some e => Raise e
       end, sent st data)
    /\ length data = length payloads
    /\ length data < length ids.
Proof.
  intros Hne Hlen Hdata.
  destruct payloads as [| p ps]; [congruence |].
  exists (batch_of env (clock_reads (world st)) (zip (p :: ps) ids)).
  assert (Hall : forallb (fun pr => has_data_b (fst pr)) (zip (p :: ps) ids) = true).
  { apply forallb_forall. intros [q j] Hin. cbn [fst].
    apply has_data_b_true.
    assert (Hz : Forall (fun pr => has_data (fst pr)) (zip (p :: ps) ids)).
    { apply zip_has_data. rewrite firstn_all2 by lia. exact Hdata. }
    rewrite Forall_forall in Hz. exact (Hz _ Hin). }
  rewrite insert_total, Hall. cbv zeta.
  rewrite batch_of_length, zip_length.
  repeat split; lia.
Qed.

Lemma insert_returns_surplus_ids_witness :
  (Demo.payloads <> [] /\ length Demo.payloads < length ["1"; "2"; "3"]
   /\ Forall has_data Demo.payloads)
  /\ exists data,
       fst (insert Demo.env [] (Some Demo.payloads) (Some ["1"; "2"; "3"]) Demo.start)
       = Ok ["1"; "2"; "3"]
       /\ length data = 2
       /\ snd (insert Demo.env [] (Some Demo.payloads) (Some ["1"; "2"; "3"]) Demo.start)
          = sent Demo.start data.
Proof.
  assert (H1 : Demo.payloads <> []) by discriminate.
  assert (H2 : length Demo.payloads < length ["1"; "2"; "3"]) by (simpl; lia).
  assert (H3 : Forall has_data Demo.payloads).
  { repeat constructor; eexists; reflexivity. }
  split; [now repeat split |].
  destruct (insert_returns_surplus_ids Demo.env [] Demo.payloads ["1"; "2"; "3"]
              Demo.start H1 H2 H3) as (data & Hrun & Hlen & _).
  exists data. rewrite Hrun. repeat split. exact Hlen.
Defined.

(** X3.  A call of [insert] ends in one of four ways, for every input:
    it logs its warning and returns [[]]; it raises [TypeError] or
    [KeyError('data')] and leaves the state untouched; or it sends one
    write request with [min(len(payloads), len(ids))] records, reads the
    clock once per record, and returns [ids] or passes on what the write
    client raises.  There is no partial batch and never a second request. *)
Theorem insert_outcomes env vectors payloads ids st :
  let run := insert env vectors payloads ids st in
  (truthy payloads = false /\ run = (Ok [], warned st))
  \/ (truthy payloads = true /\ ids = None /\ run = (Raise TypeError, st))
  \/ (exists ps id_list,
        payloads = Some ps /\ ids = Some id_list
        /\ forallb (fun pr => has_data_b (fst pr)) (zip ps id_list) = false
        /\ run = (Raise (KeyError "data"), st))
  \/ (exists ps id_list data,
        payloads = Some ps /\ ids = Some id_list
        /\ length data = Nat.min (length ps) (length id_list)
        /\ run = (match write_answer st data with
                  | None => Ok id_list
                  | Some e => Raise e
                  end, sent st data)).
Proof. apply insert_cases. Qed.

(** X4.  When the query client returns [rows], [search] returns one
    record per row whose payload object is not the constant ['null'] of the
    code itself, in the order of [rows]; each record copies the row's [id]
    and [score] and wraps its payload under ['data'].  The trace gains the
    debug log and the read request; the clock is not read. *)
Theorem search_result_is_filtered_rows env query vectors limit filters st rows :
  read_data (query_svc_client (self st))
            (events (world st) ++ [LogDebug (search_request (self st) query limit)])
            (search_request (self st) query limit)
  = Ok rows ->
  search env query vectors limit filters st
  = (Ok (map output_of_row
           (filter (fun r => negb (Nat.eqb (obj_id (Row.payload r)) (null_const_id env)))
                   rows)),
     mkState (self st)
       (mkWorld (events (world st)
                 ++ [LogDebug (search_request (self st) query limit);
                     ReadData (search_request (self st) query limit)])
                (clock_reads (world st)))).
Proof.
  intros Hread. rewrite search_run. cbv zeta.
  unfold search_request in Hread. rewrite Hread. reflexivity.
Qed.

Lemma search_result_is_filtered_rows_witness :
  read_data (query_svc_client (self Demo.start))
            (events (world Demo.start)
             ++ [LogDebug (search_request (self Demo.start) "hello" 3)])
            (search_request (self Demo.start) "hello" 3)
  = Ok Demo.rows
  /\ fst (search Demo.env "hello" [] 3 None Demo.start)
     = Ok (map output_of_row Demo.rows).
Proof.
  assert (H : read_data (query_svc_client (self Demo.start))
                (events (world Demo.start)
                 ++ [LogDebug (search_request (self Demo.start) "hello" 3)])
                (search_request (self Demo.start) "hello" 3)
              = Ok Demo.rows) by reflexivity.
  split; [exact H |].
  rewrite (search_result_is_filtered_rows Demo.env "hello" [] 3 None Demo.start
             Demo.rows H).
  reflexivity.
Defined.

(** X5.  When the query client raises, [search] raises the same exception
    unchanged, after the request has been logged and issued; no record is
    returned and nothing else happens. *)
Theorem search_propagates_read_error env query vectors limit filters st e :
  read_data (query_svc_client (self st))
            (events (world st) ++ [LogDebug (search_request (self st) query limit)])
            (search_request (self st) query limit)
  = Raise e ->
  search env query vectors limit filters st
  = (Raise e,
     mkState (self st)
       (mkWorld (events (world st)
                 ++ [LogDebug (search_request (self st) query limit);
                     ReadData (search_request (self st) query limit)])
                (clock_reads (world st)))).
Proof.
  intros Hread. rewrite search_run. cbv zeta.
  unfold search_request in Hread. rewrite Hread. reflexivity.
Qed.

Lemma search_propagates_read_error_witness :
  read_data (query_svc_client (self Outage.start))
            (events (world Outage.start)
             ++ [LogDebug (search_request (self Outage.start) "hello" 3)])
            (search_request (self Outage.start) "hello" 3)
  = Raise (CollaboratorError "query service unavailable")
  /\ fst (search Demo.env "hello" [] 3 None Outage.start)
     = Raise (CollaboratorError "query service unavailable").
Proof.
  assert (H : read_data (query_svc_client (self Outage.start))
                (events (world Outage.start)
                 ++ [LogDebug (search_request (self Outage.start) "hello" 3)])
                (search_request (self Outage.start) "hello" 3)
              = Raise (CollaboratorError "query service unavailable")) by reflexivity.
  split; [exact H |].
  rewrite (search_propagates_read_error Demo.env "hello" [] 3 None Outage.start _ H).
  reflexivity.
Defined.

(** X6.  If none of the returned rows holds the code's own constant
    object as payload, [search] filters nothing: it returns exactly one
    record per row, in order, whatever the payloads' values are ([None],
    the text ['null'] or the empty text included). *)
Theorem search_returns_every_row_unless_aliased env query vectors limit filters st rows :
  read_data (query_svc_client (self st))
            (events (world st) ++ [LogDebug (search_request (self st) query limit)])
            (search_request (self st) query limit)
  = Ok rows ->
  Forall (fun r => obj_id (Row.payload r) <> null_const_id env) rows ->
  fst (search env query vectors limit filters st) = Ok (map output_of_row rows).
Proof.
  intros Hread Hids. rewrite search_run. cbv zeta.
  unfold search_request in Hread. rewrite Hread. cbn [fst].
  f_equal. f_equal. apply forallb_filter_id.
  apply forallb_forall. intros r Hin.
  rewrite Forall_forall in Hids. specialize (Hids r Hin).
  unfold py_is_not, py_is, null_const. cbn [obj_id].
  apply negb_true_iff. now apply Nat.eqb_neq.
Qed.

Lemma search_returns_every_row_unless_aliased_witness :
  (read_data (query_svc_client (self Demo.start))
             (events (world Demo.start)
              ++ [LogDebug (search_request (self Demo.start) "" 0)])
             (search_request (self Demo.start) "" 0)
   = Ok Demo.rows
   /\ Forall (fun r => obj_id (Row.payload r) <> null_const_id Demo.env) Demo.rows)
  /\ fst (search Demo.env "" [] 0 None Demo.start) = Ok (map output_of_row Demo.rows).
Proof.
  assert (H1 : read_data (query_svc_client (self Demo.start))
                 (events (world Demo.start)
                  ++ [LogDebug (search_request (self Demo.start) "" 0)])
                 (search_request (self Demo.start) "" 0)
               = Ok Demo.rows) by reflexivity.
  assert (H2 : Forall (fun r => obj_id (Row.payload r) <> null_const_id Demo.env)
                      Demo.rows).
  { repeat constructor; discriminate. }
  split; [now split |].
  exact (search_returns_every_row_unless_aliased Demo.env "" [] 0 None Demo.start
           Demo.rows H1 H2).
Defined.

(** X7.  Every record that [search] returns has a payload dictionary with
    the single key ['data'], and the object stored there is never the
    code's own constant ['null']. *)
Theorem search_never_returns_the_constant_object env query vectors limit filters st out :
  fst (search env query vectors limit filters st) = Ok out ->
  Forall (fun o => exists p,
            OutputData.payload o = Some [("data", p)]
            /\ obj_id p <> null_const_id env) out.
Proof.
  rewrite search_run. cbv zeta. cbn [fst].
  destruct (read_data _ _ _) as [rows | e]; [| discriminate].
  intros H. inversion H; subst. clear H.
  apply Forall_forall. intros o Hin.
  apply in_map_iff in Hin. destruct Hin as (r & Ho & Hr).
  apply filter_In in Hr. destruct Hr as [_ Hkeep].
  exists (Row.payload r). subst o. split; [reflexivity |].
  unfold py_is_not, py_is, null_const in Hkeep. cbn [obj_id] in Hkeep.
  apply negb_true_iff in Hkeep. now apply Nat.eqb_neq.
Qed.

Lemma search_never_returns_the_constant_object_witness :
  fst (search Demo.env "hello" [] 3 None Demo.start) = Ok (map output_of_row Demo.rows)
  /\ Forall (fun o => exists p,
               OutputData.payload o = Some [("data", p)]
               /\ obj_id p <> null_const_id Demo.env)
            (map output_of_row Demo.rows).
Proof.
  assert (H : fst (search Demo.env "hello" [] 3 None Demo.start)
              = Ok (map output_of_row Demo.rows)) by reflexivity.
  split; [exact H |].
  exact (search_never_returns_the_constant_object Demo.env "hello" [] 3 None
           Demo.start _ H).
Defined.

(** X8.  Over any sequence of calls, the number of read requests grows by
    exactly the number of [search] calls, and the number of write requests
    never shrinks and grows by at most the number of [insert] calls: the
    other methods send nothing, [search] never writes and [insert] never
    reads. *)
Theorem requests_over_a_call_sequence env cs st :
  let evs := events (world (run_calls env cs st)) in
  read_requests evs = read_requests (events (world st)) + search_calls cs
  /\ write_requests (events (world st)) <= write_requests evs
  /\ write_requests evs <= write_requests (events (world st)) + insert_calls cs.
Proof. apply run_calls_requests. Qed.

(** X9.  Construction followed by [insert]: for a store built by
    [__init__], the write request names the connector given to the
    constructor (or ["mem0"]) and, as target object, the one-element tuple
    holding the object name given (or ["AgentMemory"]), not that string. *)
Theorem constructed_store_writes_to_tuple env connector dlo_arg index chunk collection
    s w vectors payloads ids :
  __init__ env connector dlo_arg index chunk collection = Ok s ->
  payloads <> [] ->
  Forall has_data (firstn (length ids) payloads) ->
  exists data,
    events (world (snd (insert env vectors (Some payloads) (Some ids) (mkState s w))))
    = events w
      ++ [IngestData (PDict [("data", PList data)])
                     (default_arg "mem0" connector)
                     (PTuple [PStr (default_arg "AgentMemory" dlo_arg)])]
    /\ length data = Nat.min (length payloads) (length ids).
Proof.
  intros Hinit Hne Hdata.
  assert (Hcfg : connector_name s = default_arg "mem0" connector
                 /\ dlo s = PTuple [PStr (default_arg "AgentMemory" dlo_arg)]).
  { unfold __init__ in Hinit.
    destruct (_setup_datacloud env) as [[q i] | e]; [| discriminate].
    inversion Hinit; subst. now split. }
  destruct Hcfg as [Hc Hd].
  exists (batch_of env (clock_reads w) (zip payloads ids)).
  rewrite insert_run by (try assumption; now apply zip_has_data).
  cbn [snd world events self]. rewrite Hc, Hd.
  split; [reflexivity |].
  now rewrite batch_of_length, zip_length.
Qed.

Lemma constructed_store_writes_to_tuple_witness :
  (__init__ Demo.env (Some "conn") (Some "Memories") None None None
   = Ok (mkStore "conn" (PTuple [PStr "Memories"]) "AgentMemory_index_dlm"
                 "AgentMemory_chunk_dlm" Demo.query_client Demo.accepting_client)
   /\ Demo.payloads <> []
   /\ Forall has_data (firstn (length Demo.ids) Demo.payloads))
  /\ exists data,
       events (world (snd (insert Demo.env [] (Some Demo.payloads) (Some Demo.ids)
                             (mkState
                                (mkStore "conn" (PTuple [PStr "Memories"])
                                   "AgentMemory_index_dlm" "AgentMemory_chunk_dlm"
                                   Demo.query_client Demo.accepting_client)
                                (mkWorld [] 0)))))
       = [IngestData (PDict [("data", PList data)]) "conn" (PTuple [PStr "Memories"])]
       /\ length data = 2.
Proof.
  assert (H1 : __init__ Demo.env (Some "conn") (Some "Memories") None None None
               = Ok (mkStore "conn" (PTuple [PStr "Memories"]) "AgentMemory_index_dlm"
                       "AgentMemory_chunk_dlm" Demo.query_client Demo.accepting_client))
    by reflexivity.
  assert (H2 : Demo.payloads <> []) by discriminate.
  assert (H3 : Forall has_data (firstn (length Demo.ids) Demo.payloads)).
  { repeat constructor; eexists; reflexivity. }
  split; [now repeat split |].
  exact (constructed_store_writes_to_tuple Demo.env (Some "conn") (Some "Memories")
           None None None _ (mkWorld [] 0) [] Demo.payloads Demo.ids H1 H2 H3).
Defined.

(** X10.  [search] reads only the two structure names and the query
    client of the store: two stores that agree on these, started in the
    same world, return the same value and leave the same trace, whatever
    their connector name, object name and write client. *)
Theorem search_reads_only_names_and_query_client env query vectors limit filters s1 s2 w :
  vector_index_dlm s1 = vector_index_dlm s2 ->
  chunk_dlm s1 = chunk_dlm s2 ->
  query_svc_client s1 = query_svc_client s2 ->
  fst (search env query vectors limit filters (mkState s1 w))
  = fst (search env query vectors limit filters (mkState s2 w))
  /\ world (snd (search env query vectors limit filters (mkState s1 w)))
     = world (snd (search env query vectors limit filters (mkState s2 w))).
Proof.
  intros Hi Hc Hq. rewrite !search_run. cbv zeta. cbn [fst snd self world events].
  now rewrite Hi, Hc, Hq.
Qed.

Lemma search_reads_only_names_and_query_client_witness :
  (vector_index_dlm Demo.store = vector_index_dlm
     (mkStore "other" PNone "AgentMemory_index_dlm" "AgentMemory_chunk_dlm"
              Demo.query_client Outage.ingestion_client)
   /\ chunk_dlm Demo.store = chunk_dlm
        (mkStore "other" PNone "AgentMemory_index_dlm" "AgentMemory_chunk_dlm"
                 Demo.query_client Outage.ingestion_client)
   /\ query_svc_client Demo.store = query_svc_client
        (mkStore "other" PNone "AgentMemory_index_dlm" "AgentMemory_chunk_dlm"
                 Demo.query_client Outage.ingestion_client))
  /\ fst (search Demo.env "hello" [] 3 None (mkState Demo.store (mkWorld [] 0)))
     = fst (search Demo.env "hello" [] 3 None
              (mkState (mkStore "other" PNone "AgentMemory_index_dlm"
                          "AgentMemory_chunk_dlm" Demo.query_client
                          Outage.ingestion_client)
                       (mkWorld [] 0))).
Proof.
  split; [now repeat split |].
  exact (proj1 (search_reads_only_names_and_query_client Demo.env "hello" [] 3 None
                  Demo.store
                  (mkStore "other" PNone "AgentMemory_index_dlm" "AgentMemory_chunk_dlm"
                           Demo.query_client Outage.ingestion_client)
                  (mkWorld [] 0) eq_refl eq_refl eq_refl)).
Defined.

(** X11.  [insert] reads only the connector name, the target object and
    the write client of the store: two stores that agree on these, started
    in the same world, return the same value and leave the same trace and
    clock, whatever their structure names and query client. *)
Theorem insert_reads_only_connector_target_and_client env vectors payloads ids s1 s2 w :
  connector_name s1 = connector_name s2 ->
  dlo s1 = dlo s2 ->
  ingestion_client s1 = ingestion_client s2 ->
  fst (insert env vectors payloads ids (mkState s1 w))
  = fst (insert env vectors payloads ids (mkState s2 w))
  /\ world (snd (insert env vectors payloads ids (mkState s1 w)))
     = world (snd (insert env vectors payloads ids (mkState s2 w))).
Proof.
  intros Hc Hd Hi.
  destruct payloads as [[| p ps] |]; try (split; reflexivity).
  destruct ids as [id_list |]; [| split; reflexivity].
  rewrite !insert_total.
  destruct (forallb _ (zip (p :: ps) id_list)); [| split; reflexivity].
  cbv zeta. unfold write_answer, sent. cbn [fst snd self world events clock_reads].
  now rewrite Hc, Hd, Hi.
Qed.

Lemma insert_reads_only_connector_target_and_client_witness :
  (connector_name Demo.store = connector_name
     (mkStore "mem0" (PTuple [PStr "AgentMemory"]) "x" "y"
              Outage.query_client Demo.accepting_client)
   /\ dlo Demo.store = dlo
        (mkStore "mem0" (PTuple [PStr "AgentMemory"]) "x" "y"
                 Outage.query_client Demo.accepting_client)
   /\ ingestion_client Demo.store = ingestion_client
        (mkStore "mem0" (PTuple [PStr "AgentMemory"]) "x" "y"
                 Outage.query_client Demo.accepting_client))
  /\ fst (insert Demo.env [] (Some Demo.payloads) (Some Demo.ids)
            (mkState Demo.store (mkWorld [] 0)))
     = fst (insert Demo.env [] (Some Demo.payloads) (Some Demo.ids)
              (mkState (mkStore "mem0" (PTuple [PStr "AgentMemory"]) "x" "y"
                          Outage.query_client Demo.accepting_client)
                       (mkWorld [] 0))).
Proof.
  split; [now repeat split |].
  exact (proj1 (insert_reads_only_connector_target_and_client Demo.env []
                  (Some Demo.payloads) (Some Demo.ids) Demo.store
                  (mkStore "mem0" (PTuple [PStr "AgentMemory"]) "x" "y"
                           Outage.query_client Demo.accepting_client)
                  (mkWorld [] 0) eq_refl eq_refl eq_refl)).
Defined.

(** X12.  [__init__] builds the query client first and the write client
    second.  It raises what the query client's constructor raises, without
    regard to the other; else what the write client's constructor raises;
    and only when both return does it yield a store, which holds exactly
    those two clients. *)
Theorem init_fails_with_the_first_failing_client env connector dlo_arg index chunk
    collection :
  match new_QueryServiceClient env, new_DataCloudIngestionClient env with
  | Raise e, _ => __init__ env connector dlo_arg index chunk collection = Raise e
  | Ok _, Raise e => __init__ env connector dlo_arg index chunk collection = Raise e
  | Ok q, Ok i =>
      exists s,
        __init__ env connector dlo_arg index chunk collection = Ok s
        /\ query_svc_client s = q /\ ingestion_client s = i
  end.
Proof.
  unfold __init__, _setup_datacloud.
  destruct (new_QueryServiceClient env) as [q | e]; [| reflexivity].
  destruct (new_DataCloudIngestionClient env) as [i | e]; [| reflexivity].
  eexists. repeat split.
Qed.
